(** * ModernCppErrorHandling: the std::expected pipeline of [src/main.cpp]

    A shallow embedding of the railway-oriented pipeline
    [LoadConfig -> ValidateData -> ProcessData], of [std::expected::and_then]
    and of the [std::visit] dispatcher, followed by the properties the
    specification states about them.

    Modelling choices:
    - [std::string] is [string] (a sequence of 8-bit characters);
    - the file system is a finite map from paths to contents, a path that is
      absent from the map being one that [std::ifstream] cannot open; a path
      is the identity of a file, two different paths being two different
      files (no links and no second spelling of a name);
    - whether a file can be created or removed is decided by the
      environment, and [main] tests neither: the environment is a parameter
      of the code that writes files;
    - [std::cout] and [std::cerr] are one trace of output events, in program
      order, so that running a stage is observable;
    - functions that read the file system or print are computations of the
      state monad [M] over [World];
    - [int] is 32 bits wide, and [static_cast<int>] of a [size_t] wraps. *)

From Stdlib Require Import ZArith String Ascii List Lia DecimalString.
From stdpp Require Import base option strings gmap.

Local Open Scope Z_scope.
Local Open Scope string_scope.

#[local] Arguments String.append !_ _ / : simpl nomatch.

(** ** Machine integers *)

Definition int_bits : Z := 32.
Definition INT_MAX : Z := 2 ^ (int_bits - 1) - 1.
Definition INT_MIN : Z := - 2 ^ (int_bits - 1).

(** [static_cast<int>(n)] for an integral [n]: the value congruent to [n]
    modulo [2 ^ int_bits] that lies in [INT_MIN .. INT_MAX]. *)
Definition static_cast_int (n : Z) : Z :=
  (n - INT_MIN) mod 2 ^ int_bits + INT_MIN.

(** ** Strings *)

Definition endl : string := String "010"%char EmptyString.

(** [s.length()] as a [size_t] value. *)
Definition length (s : string) : Z := Z.of_nat (String.length s).

(** [s.empty()]. *)
Definition empty (s : string) : bool :=
  match s with
  | EmptyString => true
  | String _ _ => false
  end.

(** Does [needle] occur in [s] at offset 0? *)
Fixpoint compare_at (s needle : string) {struct needle} : bool :=
  match needle with
  | EmptyString => true
  | String c needle' =>
      match s with
      | EmptyString => false
      | String d s' => Ascii.eqb c d && compare_at s' needle'
      end
  end.

(** [std::string::npos] is modelled by [None], a found position by [Some]. *)
Definition npos : option nat := None.

Fixpoint find_from (s needle : string) (pos : nat) : option nat :=
  if compare_at s needle then Some pos
  else match s with
       | EmptyString => npos
       | String _ s' => find_from s' needle (S pos)
       end.

(** [s.find(needle)]: the offset of the first occurrence, or [npos]. *)
Definition find (s needle : string) : option nat := find_from s needle 0.

(** [r != std::string::npos]. *)
Definition ne_npos (r : option nat) : bool :=
  match r with
  | Some _ => true
  | None => false
  end.

(** [needle] occurs in [s] as a substring. *)
Definition contains (s needle : string) : Prop :=
  exists l r : string, s = l +:+ needle +:+ r.

(** [os << n] for an [int]: the decimal numeral. *)
Definition to_chars (n : Z) : string := NilEmpty.string_of_int (Z.to_int n).

(** ** The world: files and output streams *)

Inductive ostream : Set := cout | cerr.

Record World : Type := mkWorld {
  files : gmap string string;
  output : list (ostream * string)
}.

Definition M (A : Type) : Type := World -> A * World.

Definition ret {A : Type} (a : A) : M A := fun w => (a, w).

Definition bind {A B : Type} (m : M A) (k : A -> M B) : M B :=
  fun w => let (a, w') := m w in k a w'.

Declare Scope io_scope.
Delimit Scope io_scope with io.
Notation "x <- c ;; k" := (bind c (fun x => k))
  (at level 100, c at next level, right associativity) : io_scope.
Notation "c ;; k" := (bind c (fun _ => k))
  (at level 100, right associativity) : io_scope.
Local Open Scope io_scope.

(** [os << text;] *)
Definition put (os : ostream) (text : string) : M unit :=
  fun w => (tt, mkWorld (files w) (output w ++ [(os, text)])).

(** [std::ifstream file(path)] followed by reading [file.rdbuf()] to the end:
    [None] when [is_open()] is false. *)
Definition ifstream (path : string) : M (option string) :=
  fun w => (files w !! path, w).

(** What the program cannot control: whether a file of a given path can be
    opened for writing (it cannot when the path is a directory, or when the
    directory that holds it is not writable), and whether it can be
    removed. *)
Record Env : Type := mkEnv {
  can_create : string -> bool;
  can_remove : string -> bool
}.

(** [std::ofstream(path) << content;] creates or truncates the file and
    writes the content; when the stream cannot be opened the insertion does
    nothing.  The source never tests the stream. *)
Definition ofstream (env : Env) (path content : string) : M unit :=
  fun w =>
    if can_create env path
    then (tt, mkWorld (<[path := content]> (files w)) (output w))
    else (tt, w).

(** ** Error types and the pipeline's error variant *)

Record ConfigReadError : Set := mkConfigReadError { filename : string }.

Record ConfigParseError : Set := mkConfigParseError {
  line_content : string;
  line_number : Z
}.

Record ValidationError : Set := mkValidationError {
  field_name : string;
  invalid_value : string
}.

Record ProcessingError : Set := mkProcessingError {
  task_name : string;
  details : string
}.

(** [std::variant<ConfigReadError, ConfigParseError, ValidationError,
    ProcessingError>]. *)
Inductive PipelineError : Set :=
| HoldsConfigReadError (e : ConfigReadError)
| HoldsConfigParseError (e : ConfigParseError)
| HoldsValidationError (e : ValidationError)
| HoldsProcessingError (e : ProcessingError).

(** ** Data flowing through the pipeline *)

Record Config : Set := mkConfig { data : string }.
Record ValidatedData : Set := mkValidatedData { processed_data : string }.
Record Result : Set := mkResult { final_result_code : Z }.

(** ** std::expected *)

Inductive expected (T E : Type) : Type :=
| Value (v : T)
| Unexpected (e : E).
Arguments Value {T E} v.
Arguments Unexpected {T E} e.

(** [r.and_then(f)]: [f] is invoked on the value; an error is passed on. *)
Definition and_then {T U E : Type} (r : expected T E)
    (f : T -> M (expected U E)) : M (expected U E) :=
  match r with
  | Value v => f v
  | Unexpected e => ret (Unexpected e)
  end.

(** ** The three stages *)

Definition LoadConfig (path : string) : M (expected Config PipelineError) :=
  file <- ifstream path ;;
  match file with
  | None =>
      put cerr ("DEBUG: LoadConfig failed to open " +:+ path +:+ endl) ;;
      ret (Unexpected (HoldsConfigReadError (mkConfigReadError path)))
  | Some content =>
      if empty content || ne_npos (find content "malformed") then
        put cerr ("DEBUG: LoadConfig detected malformed config in "
                  +:+ path +:+ endl) ;;
        ret (Unexpected
               (HoldsConfigParseError (mkConfigParseError "malformed" 1)))
      else
        put cout ("DEBUG: Config loaded successfully from "
                  +:+ path +:+ endl) ;;
        ret (Value (mkConfig content))
  end.

Definition ValidateData (config : Config)
    : M (expected ValidatedData PipelineError) :=
  if ne_npos (find (data config) "invalid_field") then
    put cerr ("DEBUG: ValidateData detected invalid field." +:+ endl) ;;
    ret (Unexpected
           (HoldsValidationError
              (mkValidationError "invalid_field" "contains disallowed value")))
  else
    put cout ("DEBUG: Data validated successfully." +:+ endl) ;;
    ret (Value (mkValidatedData ("Validated: " +:+ data config))).

Definition ProcessData (d : ValidatedData)
    : M (expected Result PipelineError) :=
  if (length (processed_data d) <? 10)%Z then
    put cerr ("DEBUG: ProcessData detected data too short." +:+ endl) ;;
    ret (Unexpected
           (HoldsProcessingError
              (mkProcessingError "Data Processing"
                 "Input data too short for task")))
  else
    put cout ("DEBUG: Data processed successfully." +:+ endl) ;;
    ret (Value (mkResult (static_cast_int (length (processed_data d))))).

(** ** The pipeline driver *)

Definition call_pipeline (configfile : string)
    : M (expected Result PipelineError) :=
  r1 <- LoadConfig configfile ;;
  r2 <- and_then r1 (fun cfg => ValidateData cfg) ;;
  and_then r2 (fun vd => ProcessData vd).

(** ** The dispatcher

    [handle_pipeline_result] visits the error with an [Overloaded] set of five
    lambdas: four take one alternative by [const&], the last one is generic
    ([auto&&]).  [std::visit] calls the overload set on the alternative held,
    here always a const lvalue since [final_result] is a const reference. *)

Inductive lambda : Type :=
| OnConfigReadError (body : ConfigReadError -> M unit)
| OnConfigParseError (body : ConfigParseError -> M unit)
| OnValidationError (body : ValidationError -> M unit)
| OnProcessingError (body : ProcessingError -> M unit)
| OnAuto (body : forall T : Type, T -> M unit).

(** A non-template call operator is viable when its parameter type is the
    type of the alternative held. *)
Definition call_exact (l : lambda) (e : PipelineError) : option (M unit) :=
  match l, e with
  | OnConfigReadError body, HoldsConfigReadError x => Some (body x)
  | OnConfigParseError body, HoldsConfigParseError x => Some (body x)
  | OnValidationError body, HoldsValidationError x => Some (body x)
  | OnProcessingError body, HoldsProcessingError x => Some (body x)
  | _, _ => None
  end.

(** The generic call operator is viable for every alternative. *)
Definition call_generic (l : lambda) (e : PipelineError) : option (M unit) :=
  match l with
  | OnAuto body =>
      Some match e with
           | HoldsConfigReadError x => body _ x
           | HoldsConfigParseError x => body _ x
           | HoldsValidationError x => body _ x
           | HoldsProcessingError x => body _ x
           end
  | _ => None
  end.

Fixpoint first_viable (call : lambda -> PipelineError -> option (M unit))
    (ov : list lambda) (e : PipelineError) (i : nat) : option (nat * M unit) :=
  match ov with
  | [] => None
  | l :: ov' =>
      match call l e with
      | Some m => Some (i, m)
      | None => first_viable call ov' e (S i)
      end
  end.

(** Overload resolution on a const lvalue: both kinds of call operator bind
    the argument exactly, and a non-template function is preferred to a
    template specialisation.  The result is the position of the selected
    lambda in the overload set and its body applied to the alternative.
    (Two lambdas for one alternative would be ambiguous in C++; the source
    has one for each.) *)
Definition resolve (ov : list lambda) (e : PipelineError)
    : option (nat * M unit) :=
  match first_viable call_exact ov e 0 with
  | Some r => Some r
  | None => first_viable call_generic ov e 0
  end.

(** [std::visit(Overloaded{...}, e)]. *)
Definition visit (ov : list lambda) (e : PipelineError) : M unit :=
  match resolve ov e with
  | Some (_, m) => m
  | None => ret tt
  end.

Definition unexpected_type_message : string :=
  "An unexpected error type was encountered." +:+ endl.

(** The [Overloaded{...}] object that [handle_pipeline_result] builds, its
    lambdas in the order of the source. *)
Definition error_visitor : list lambda :=
  [ OnConfigReadError (fun e =>
      put cerr ("Configuration Read Error: Could not open file '"
                +:+ filename e +:+ "'" +:+ endl));
    OnConfigParseError (fun e =>
      put cerr ("Configuration Parse Error: Malformed content at line "
                +:+ to_chars (line_number e) +:+ " (Context: '"
                +:+ line_content e +:+ "')" +:+ endl));
    OnValidationError (fun e =>
      put cerr ("Data Validation Error: Field '" +:+ field_name e
                +:+ "' has invalid value '" +:+ invalid_value e
                +:+ "'" +:+ endl));
    OnProcessingError (fun e =>
      put cerr ("Data Processing Error: Task '" +:+ task_name e
                +:+ "' failed. Details: " +:+ details e +:+ endl));
    OnAuto (fun _ _ => put cerr unexpected_type_message) ].

Definition handle_pipeline_result
    (final_result : expected Result PipelineError) : M unit :=
  match final_result with
  | Value r =>
      put cout (endl +:+ "Pipeline Succeeded! Final Result Code: "
                +:+ to_chars (final_result_code r) +:+ endl)
  | Unexpected e =>
      put cerr (endl +:+ "Pipeline Failed! Error details: ") ;;
      visit error_visitor e
  end.

(** ** The scenarios of [main] *)

(** The chain that [main] writes out in each scenario. *)
Definition run_scenario (path : string) : M unit :=
  r1 <- LoadConfig path ;;
  r2 <- and_then r1 (fun cfg => ValidateData cfg) ;;
  r3 <- and_then r2 (fun vd => ProcessData vd) ;;
  handle_pipeline_result r3.

Definition scenario_1 (env : Env) : M unit :=
  put cout ("--- Scenario 1: Successful Execution ---" +:+ endl) ;;
  ofstream env "valid_config.txt" "valid_data_content" ;;
  run_scenario "valid_config.txt".

Definition scenario_5 (env : Env) : M unit :=
  put cout (endl +:+ "--- Scenario 5: Processing Error ---" +:+ endl) ;;
  ofstream env "short_data_config.txt" "short" ;;
  run_scenario "short_data_config.txt".

(** [std::get_if<ConfigReadError>(&e)]. *)
Definition get_if_ConfigReadError (e : PipelineError)
    : option ConfigReadError :=
  match e with
  | HoldsConfigReadError c => Some c
  | _ => None
  end.

(** [test_read_nonexisted_config_file]: the result is [false] when one of
    its assertions fails. *)
Definition test_read_nonexisted_config_file : M bool :=
  let path := "this_file_should_not_exist.txt" in
  let expected_error := mkConfigReadError path in
  r <- call_pipeline path ;;
  match r with
  | Value _ => ret false
  | Unexpected target =>
      match get_if_ConfigReadError target with
      | None => ret false
      | Some c =>
          if String.eqb (filename c) (filename expected_error)
          then put cout ("test_read_nonexisted_config_file() passes" +:+ endl) ;;
               ret true
          else ret false
      end
  end.

(** ** [main] *)

(** [std::remove(path)]: the file is gone when the removal succeeds, and
    nothing changes when it fails.  [main] ignores the status returned. *)
Definition remove (env : Env) (path : string) : M unit :=
  fun w =>
    if can_remove env path
    then (tt, mkWorld (delete path (files w)) (output w))
    else (tt, w).

Definition scenario_2 : M unit :=
  put cout (endl +:+ "--- Scenario 2: Config Read Error ---" +:+ endl) ;;
  run_scenario "non_existent_config.txt".

Definition scenario_3 (env : Env) : M unit :=
  put cout (endl +:+ "--- Scenario 3: Config Parse Error ---" +:+ endl) ;;
  ofstream env "malformed_config.txt" "malformed content" ;;
  run_scenario "malformed_config.txt".

Definition scenario_4 (env : Env) : M unit :=
  put cout (endl +:+ "--- Scenario 4: Validation Error ---" +:+ endl) ;;
  ofstream env "invalid_data_config.txt"
    ("valid_data" +:+ endl +:+ "invalid_field") ;;
  run_scenario "invalid_data_config.txt".

(** [main]: the exit status, or [None] when an assertion of the unit test
    fails and the program aborts. *)
Definition main (env : Env) : M (option Z) :=
  scenario_1 env ;;
  scenario_2 ;;
  scenario_3 env ;;
  scenario_4 env ;;
  scenario_5 env ;;
  remove env "valid_config.txt" ;;
  remove env "malformed_config.txt" ;;
  remove env "invalid_data_config.txt" ;;
  remove env "short_data_config.txt" ;;
  put cout (endl +:+ "--- Start unit testing. ---" +:+ endl) ;;
  passed <- test_read_nonexisted_config_file ;;
  if passed : bool then
    put cout (endl +:+ "--- All unit tests pass. ---" +:+ endl) ;;
    ret (Some 0)
  else ret None.

(** [r.has_value()]. *)
Definition has_value {T E : Type} (r : expected T E) : bool :=
  match r with
  | Value _ => true
  | Unexpected _ => false
  end.

(** Is the lambda the generic one? *)
Definition is_generic (l : lambda) : bool :=
  match l with
  | OnAuto _ => true
  | _ => false
  end.

(** The characters that a sequence of output events puts on one stream. *)
Fixpoint written (os : ostream) (evs : list (ostream * string)) : string :=
  match evs with
  | [] => EmptyString
  | (cout, text) :: evs' =>
      match os with
      | cout => text +:+ written os evs'
      | cerr => written os evs'
      end
  | (cerr, text) :: evs' =>
      match os with
      | cout => written os evs'
      | cerr => text +:+ written os evs'
      end
  end.


(** ** Values used in the examples *)

(** The errors that the stages construct. *)
Definition read_error (path : string) : PipelineError :=
  HoldsConfigReadError (mkConfigReadError path).
Definition parse_error : PipelineError :=
  HoldsConfigParseError (mkConfigParseError "malformed" 1).
Definition validation_error : PipelineError :=
  HoldsValidationError
    (mkValidationError "invalid_field" "contains disallowed value").
Definition processing_error : PipelineError :=
  HoldsProcessingError
    (mkProcessingError "Data Processing" "Input data too short for task").

Definition is_processing_error {T : Type} (r : expected T PipelineError)
    : bool :=
  match r with
  | Unexpected (HoldsProcessingError _) => true
  | _ => false
  end.

(** The part of the chain that follows [LoadConfig]. *)
Definition validate_then_process (cfg : Config)
    : M (expected Result PipelineError) :=
  r <- ValidateData cfg ;;
  and_then r (fun vd => ProcessData vd).

(** A file system with the four files that [main] creates and an empty
    file, and nothing printed yet. *)
Definition sample_files : gmap string string :=
  <["valid_config.txt" := "valid_data_content"]>
    (<["malformed_config.txt" := "malformed content"]>
       (<["invalid_data_config.txt" := "valid_data" +:+ endl +:+ "invalid_field"]>
          (<["short_data_config.txt" := "short"]>
             (<["empty.txt" := EmptyString]> ∅)))).

Definition sample_world : World := mkWorld sample_files [].

(** The lines of the reference run of [main], scenario by scenario. *)
Definition scenario_1_lines : list (ostream * string) :=
  [(cout, "--- Scenario 1: Successful Execution ---" +:+ endl);
   (cout, "DEBUG: Config loaded successfully from valid_config.txt" +:+ endl);
   (cout, "DEBUG: Data validated successfully." +:+ endl);
   (cout, "DEBUG: Data processed successfully." +:+ endl);
   (cout, endl +:+ "Pipeline Succeeded! Final Result Code: 29" +:+ endl)].

Definition scenario_2_lines : list (ostream * string) :=
  [(cout, endl +:+ "--- Scenario 2: Config Read Error ---" +:+ endl);
   (cerr, "DEBUG: LoadConfig failed to open non_existent_config.txt"
          +:+ endl);
   (cerr, endl +:+ "Pipeline Failed! Error details: ");
   (cerr, "Configuration Read Error: Could not open file "
          +:+ "'non_existent_config.txt'" +:+ endl)].

Definition scenario_3_lines : list (ostream * string) :=
  [(cout, endl +:+ "--- Scenario 3: Config Parse Error ---" +:+ endl);
   (cerr, "DEBUG: LoadConfig detected malformed config in "
          +:+ "malformed_config.txt" +:+ endl);
   (cerr, endl +:+ "Pipeline Failed! Error details: ");
   (cerr, "Configuration Parse Error: Malformed content at line 1 "
          +:+ "(Context: 'malformed')" +:+ endl)].

Definition scenario_4_lines : list (ostream * string) :=
  [(cout, endl +:+ "--- Scenario 4: Validation Error ---" +:+ endl);
   (cout, "DEBUG: Config loaded successfully from invalid_data_config.txt"
          +:+ endl);
   (cerr, "DEBUG: ValidateData detected invalid field." +:+ endl);
   (cerr, endl +:+ "Pipeline Failed! Error details: ");
   (cerr, "Data Validation Error: Field 'invalid_field' has invalid value "
          +:+ "'contains disallowed value'" +:+ endl)].

Definition scenario_5_lines : list (ostream * string) :=
  [(cout, endl +:+ "--- Scenario 5: Processing Error ---" +:+ endl);
   (cout, "DEBUG: Config loaded successfully from short_data_config.txt"
          +:+ endl);
   (cout, "DEBUG: Data validated successfully." +:+ endl);
   (cout, "DEBUG: Data processed successfully." +:+ endl);
   (cout, endl +:+ "Pipeline Succeeded! Final Result Code: 16" +:+ endl)].

Definition unit_test_lines : list (ostream * string) :=
  [(cout, endl +:+ "--- Start unit testing. ---" +:+ endl);
   (cerr, "DEBUG: LoadConfig failed to open this_file_should_not_exist.txt"
          +:+ endl);
   (cout, "test_read_nonexisted_config_file() passes" +:+ endl);
   (cout, endl +:+ "--- All unit tests pass. ---" +:+ endl)].


(** [2 ^ k] copies of [s], one after the other. *)
Fixpoint pow2_copies (k : nat) (s : string) : string :=
  match k with
  | O => s
  | S k' => pow2_copies k' (s +:+ s)
  end.

(** [e.index()]: the position of the alternative held. *)
Definition index (e : PipelineError) : nat :=
  match e with
  | HoldsConfigReadError _ => 0
  | HoldsConfigParseError _ => 1
  | HoldsValidationError _ => 2
  | HoldsProcessingError _ => 3
  end.

(** * Properties *)

(** ** Substring search *)

Lemma append_assoc (a b c : string) : (a +:+ b) +:+ c = a +:+ b +:+ c.
Proof. induction a as [|x a IH]; simpl; [reflexivity | now rewrite IH]. Qed.

Lemma length_append (a b : string) : length (a +:+ b) = length a + length b.
Proof.
  unfold length. induction a as [|x a IH]; simpl String.length.
  - reflexivity.
  - rewrite !Nat2Z.inj_succ. lia.
Qed.

Lemma length_nonneg (s : string) : 0 <= length s.
Proof. unfold length. lia. Qed.

Lemma empty_true (s : string) : empty s = true <-> s = EmptyString.
Proof. destruct s; simpl; split; congruence. Qed.

Lemma empty_false_length (s : string) : empty s = false -> 1 <= length s.
Proof.
  destruct s; simpl; [discriminate | intros _].
  unfold length. simpl String.length. lia.
Qed.

Lemma compare_at_prefix (s needle : string) :
  compare_at s needle = true <-> exists r : string, s = needle +:+ r.
Proof.
  revert s. induction needle as [|c needle IH]; intros s; simpl.
  - split; [intros _; now exists s | reflexivity].
  - destruct s as [|d s].
    + split; [discriminate | intros [r Hr]; discriminate].
    + rewrite andb_true_iff, Ascii.eqb_eq, IH. split.
      * intros [-> [r ->]]. now exists r.
      * intros [r Hr]. injection Hr as -> ->. split; [reflexivity | now exists r].
Qed.

Lemma contains_cons (d : ascii) (s needle : string) :
  contains (String d s) needle <->
  compare_at (String d s) needle = true \/ contains s needle.
Proof.
  rewrite compare_at_prefix. unfold contains. split.
  - intros [[|x l] [r Hr]]; simpl in Hr.
    + left. now exists r.
    + right. injection Hr as -> ->. now exists l, r.
  - intros [[r Hr] | [l [r Hr]]].
    + exists EmptyString, r. exact Hr.
    + exists (String d l), r. simpl. now rewrite Hr.
Qed.

Lemma contains_nil (needle : string) :
  contains EmptyString needle <-> compare_at EmptyString needle = true.
Proof.
  rewrite compare_at_prefix. unfold contains. split.
  - intros [[|x l] [r Hr]]; simpl in Hr; [now exists r | discriminate].
  - intros [r Hr]. now exists EmptyString, r.
Qed.

Lemma find_from_contains (s needle : string) (pos : nat) :
  ne_npos (find_from s needle pos) = true <-> contains s needle.
Proof.
  revert pos. induction s as [|d s IH]; intros pos.
  - rewrite contains_nil. simpl find_from.
    destruct (compare_at EmptyString needle); simpl; split; congruence.
  - rewrite contains_cons, <- (IH (S pos)).
    change (find_from (String d s) needle pos)
      with (if compare_at (String d s) needle then Some pos
            else find_from s needle (S pos)).
    destruct (compare_at (String d s) needle); simpl.
    + split; [now left | reflexivity].
    + split; [now right | intros [H | H]; [discriminate | exact H]].
Qed.

(** [s.find(needle) != npos] holds exactly when [needle] occurs in [s]. *)
Lemma find_ne_npos (s needle : string) :
  ne_npos (find s needle) = true <-> contains s needle.
Proof. apply find_from_contains. Qed.

Lemma find_eq_npos (s needle : string) :
  ne_npos (find s needle) = false <-> ~ contains s needle.
Proof.
  rewrite <- find_ne_npos. destruct (ne_npos (find s needle)); split; congruence.
Qed.

(** [s.find(needle)] is an offset at which [needle] occurs, and the first. *)
Lemma find_from_first (s needle : string) (pos i : nat) :
  find_from s needle pos = Some i ->
  exists l r : string,
    s = l +:+ needle +:+ r /\ (i = pos + String.length l)%nat.
Proof.
  revert pos. induction s as [|d s IH]; intros pos.
  - simpl. destruct (compare_at EmptyString needle) eqn:E; [| discriminate].
    intros [= <-]. apply compare_at_prefix in E as [r Hr].
    exists EmptyString, r. split; [exact Hr | simpl; lia].
  - change (find_from (String d s) needle pos)
      with (if compare_at (String d s) needle then Some pos
            else find_from s needle (S pos)).
    destruct (compare_at (String d s) needle) eqn:E.
    + intros [= <-]. apply compare_at_prefix in E as [r Hr].
      exists EmptyString, r. split; [exact Hr | simpl; lia].
    + intros H. apply IH in H as [l [r [Hs Hi]]].
      exists (String d l), r. split; [simpl; now rewrite Hs | simpl; lia].
Qed.

(** ** The stages, one equation per path through the code *)

Lemma LoadConfig_unopened (path : string) (w : World) :
  files w !! path = None ->
  LoadConfig path w =
    (Unexpected (read_error path),
     mkWorld (files w)
       (output w ++
        [(cerr, "DEBUG: LoadConfig failed to open " +:+ path +:+ endl)])).
Proof. intros H. unfold LoadConfig, bind, ifstream. now rewrite H. Qed.

Lemma LoadConfig_malformed (path content : string) (w : World) :
  files w !! path = Some content ->
  empty content || ne_npos (find content "malformed") = true ->
  LoadConfig path w =
    (Unexpected parse_error,
     mkWorld (files w)
       (output w ++
        [(cerr, "DEBUG: LoadConfig detected malformed config in "
                +:+ path +:+ endl)])).
Proof. intros H C. unfold LoadConfig, bind, ifstream. now rewrite H, C. Qed.

Lemma LoadConfig_loaded (path content : string) (w : World) :
  files w !! path = Some content ->
  empty content || ne_npos (find content "malformed") = false ->
  LoadConfig path w =
    (Value (mkConfig content),
     mkWorld (files w)
       (output w ++
        [(cout, "DEBUG: Config loaded successfully from "
                +:+ path +:+ endl)])).
Proof. intros H C. unfold LoadConfig, bind, ifstream. now rewrite H, C. Qed.

Lemma ValidateData_invalid (config : Config) (w : World) :
  ne_npos (find (data config) "invalid_field") = true ->
  ValidateData config w =
    (Unexpected validation_error,
     mkWorld (files w)
       (output w ++
        [(cerr, "DEBUG: ValidateData detected invalid field." +:+ endl)])).
Proof. intros C. unfold ValidateData. now rewrite C. Qed.

Lemma ValidateData_valid (config : Config) (w : World) :
  ne_npos (find (data config) "invalid_field") = false ->
  ValidateData config w =
    (Value (mkValidatedData ("Validated: " +:+ data config)),
     mkWorld (files w)
       (output w ++
        [(cout, "DEBUG: Data validated successfully." +:+ endl)])).
Proof. intros C. unfold ValidateData. now rewrite C. Qed.

Lemma ProcessData_short (d : ValidatedData) (w : World) :
  length (processed_data d) < 10 ->
  ProcessData d w =
    (Unexpected processing_error,
     mkWorld (files w)
       (output w ++
        [(cerr, "DEBUG: ProcessData detected data too short." +:+ endl)])).
Proof.
  intros C. unfold ProcessData.
  now destruct (Z.ltb_spec (length (processed_data d)) 10); [| lia].
Qed.

Lemma ProcessData_long (d : ValidatedData) (w : World) :
  10 <= length (processed_data d) ->
  ProcessData d w =
    (Value (mkResult (static_cast_int (length (processed_data d)))),
     mkWorld (files w)
       (output w ++
        [(cout, "DEBUG: Data processed successfully." +:+ endl)])).
Proof.
  intros C. unfold ProcessData.
  now destruct (Z.ltb_spec (length (processed_data d)) 10); [lia |].
Qed.

(** Every invocation of a stage prints exactly one line and leaves the
    files alone, so whether a stage ran can be read off the output. *)
Lemma LoadConfig_prints (path : string) (w : World) :
  exists ev, snd (LoadConfig path w) = mkWorld (files w) (output w ++ [ev]).
Proof.
  destruct (files w !! path) as [content|] eqn:H.
  - destruct (empty content || ne_npos (find content "malformed")) eqn:C.
    + rewrite (LoadConfig_malformed _ _ _ H C). now eexists.
    + rewrite (LoadConfig_loaded _ _ _ H C). now eexists.
  - rewrite (LoadConfig_unopened _ _ H). now eexists.
Qed.

Lemma ValidateData_prints (config : Config) (w : World) :
  exists ev, snd (ValidateData config w) = mkWorld (files w) (output w ++ [ev]).
Proof.
  destruct (ne_npos (find (data config) "invalid_field")) eqn:C.
  - rewrite (ValidateData_invalid _ _ C). now eexists.
  - rewrite (ValidateData_valid _ _ C). now eexists.
Qed.

Lemma ProcessData_prints (d : ValidatedData) (w : World) :
  exists ev, snd (ProcessData d w) = mkWorld (files w) (output w ++ [ev]).
Proof.
  destruct (Z.lt_ge_cases (length (processed_data d)) 10) as [C | C].
  - rewrite (ProcessData_short _ _ C). now eexists.
  - rewrite (ProcessData_long _ _ C). now eexists.
Qed.

(** ** The chain *)

Lemma call_pipeline_unfold (configfile : string) (w : World) :
  call_pipeline configfile w =
    let (r1, w1) := LoadConfig configfile w in
    and_then r1 validate_then_process w1.
Proof.
  unfold call_pipeline, bind. destruct (LoadConfig configfile w) as [[cfg | e] w1].
  - reflexivity.
  - reflexivity.
Qed.

Lemma call_pipeline_load_failed (path : string) (w w1 : World)
    (e : PipelineError) :
  LoadConfig path w = (Unexpected e, w1) ->
  call_pipeline path w = (Unexpected e, w1).
Proof. intros H. rewrite call_pipeline_unfold, H. reflexivity. Qed.

Lemma call_pipeline_loaded (path : string) (w w1 : World) (cfg : Config) :
  LoadConfig path w = (Value cfg, w1) ->
  call_pipeline path w = validate_then_process cfg w1.
Proof. intros H. rewrite call_pipeline_unfold, H. reflexivity. Qed.

Lemma validate_then_process_failed (cfg : Config) (w w2 : World)
    (e : PipelineError) :
  ValidateData cfg w = (Unexpected e, w2) ->
  validate_then_process cfg w = (Unexpected e, w2).
Proof. intros H. unfold validate_then_process, bind. now rewrite H. Qed.

Lemma validate_then_process_validated (cfg : Config) (w w2 : World)
    (vd : ValidatedData) :
  ValidateData cfg w = (Value vd, w2) ->
  validate_then_process cfg w = ProcessData vd w2.
Proof. intros H. unfold validate_then_process, bind. now rewrite H. Qed.

(** ** Short-circuiting *)

(** C1: [and_then] on a failed result returns the same failure and leaves the
    world as it was, whatever the stage function [f] is, so [f] is not
    invoked; the same holds for a chain of two [and_then].  In
    [call_pipeline], when [LoadConfig] fails the terminal result and the
    world are those [LoadConfig] left, and when [ValidateData] fails they are
    those [ValidateData] left: the first error is passed on unchanged, and the
    later stages, each of which prints a line whenever it runs, have not
    run. *)
Theorem and_then_short_circuit :
  (forall (T U E : Type) (e : E) (f : T -> M (expected U E)) (w : World),
      and_then (Unexpected e) f w = (Unexpected e, w)) /\
  (forall (T U V E : Type) (e : E) (f : T -> M (expected U E))
          (g : U -> M (expected V E)) (w : World),
      (r <- and_then (Unexpected e) f ;; and_then r g) w
      = (Unexpected e, w)) /\
  (forall (path : string) (w w1 : World) (e : PipelineError),
      LoadConfig path w = (Unexpected e, w1) ->
      call_pipeline path w = (Unexpected e, w1)) /\
  (forall (path : string) (w w1 w2 : World) (cfg : Config)
          (e : PipelineError),
      LoadConfig path w = (Value cfg, w1) ->
      ValidateData cfg w1 = (Unexpected e, w2) ->
      call_pipeline path w = (Unexpected e, w2)) /\
  (forall (cfg : Config) (w : World),
      exists ev,
        snd (ValidateData cfg w) = mkWorld (files w) (output w ++ [ev])) /\
  (forall (d : ValidatedData) (w : World),
      exists ev,
        snd (ProcessData d w) = mkWorld (files w) (output w ++ [ev])).
Proof.
  repeat split.
  - intros. apply call_pipeline_load_failed. assumption.
  - intros path w w1 w2 cfg e HL HV.
    rewrite (call_pipeline_loaded _ _ _ _ HL).
    apply validate_then_process_failed. exact HV.
  - apply ValidateData_prints.
  - apply ProcessData_prints.
Qed.

Lemma and_then_short_circuit_witness :
  call_pipeline "invalid_data_config.txt" sample_world =
    (Unexpected validation_error,
     mkWorld sample_files
       [(cout, "DEBUG: Config loaded successfully from invalid_data_config.txt"
               +:+ endl);
        (cerr, "DEBUG: ValidateData detected invalid field." +:+ endl)]).
Proof.
  destruct and_then_short_circuit as (_ & _ & _ & H & _).
  eapply H; vm_compute; reflexivity.
Defined.

(** ** LoadConfig *)

(** C2: when the path cannot be opened, [LoadConfig] fails with a
    [ConfigReadError] whose [filename] is the requested path, and so does the
    whole pipeline called on that path. *)
Theorem LoadConfig_nonexistent (path : string) (w : World) :
  files w !! path = None ->
  fst (LoadConfig path w)
  = Unexpected (HoldsConfigReadError (mkConfigReadError path)) /\
  fst (call_pipeline path w)
  = Unexpected (HoldsConfigReadError (mkConfigReadError path)).
Proof.
  intros H. pose proof (LoadConfig_unopened _ _ H) as HL.
  rewrite (call_pipeline_load_failed _ _ _ _ HL), HL. split; reflexivity.
Qed.

Lemma LoadConfig_nonexistent_witness :
  fst (LoadConfig "non_existent_config.txt" sample_world)
  = Unexpected
      (HoldsConfigReadError (mkConfigReadError "non_existent_config.txt")) /\
  fst (call_pipeline "non_existent_config.txt" sample_world)
  = Unexpected
      (HoldsConfigReadError (mkConfigReadError "non_existent_config.txt")).
Proof.
  apply (LoadConfig_nonexistent "non_existent_config.txt" sample_world).
  vm_compute. reflexivity.
Defined.

(** The unit test of the source passes wherever its file is absent. *)
Lemma test_read_nonexisted_config_file_passes (w : World) :
  files w !! "this_file_should_not_exist.txt" = None ->
  fst (test_read_nonexisted_config_file w) = true.
Proof.
  intros H. unfold test_read_nonexisted_config_file, bind.
  rewrite (call_pipeline_load_failed _ _ _ _ (LoadConfig_unopened _ _ H)).
  reflexivity.
Qed.

(** C3: for a source that can be read, [LoadConfig] fails with
    [ConfigParseError{"malformed", 1}] when the content is empty or contains
    "malformed", and succeeds with a [Config] holding the content when the
    content is non-empty and does not contain "malformed". *)
Theorem LoadConfig_readable (path content : string) (w : World) :
  files w !! path = Some content ->
  ((content = EmptyString \/ contains content "malformed") ->
   fst (LoadConfig path w)
   = Unexpected (HoldsConfigParseError (mkConfigParseError "malformed" 1))) /\
  ((content <> EmptyString /\ ~ contains content "malformed") ->
   fst (LoadConfig path w) = Value (mkConfig content)).
Proof.
  intros H. split.
  - intros C. erewrite LoadConfig_malformed; [reflexivity | exact H |].
    apply orb_true_iff. rewrite empty_true, find_ne_npos. exact C.
  - intros [C1 C2]. erewrite LoadConfig_loaded; [reflexivity | exact H |].
    apply orb_false_iff. split.
    + destruct (empty content) eqn:E; [| reflexivity].
      apply empty_true in E. contradiction.
    + apply find_eq_npos. exact C2.
Qed.

Lemma LoadConfig_readable_witness :
  fst (LoadConfig "malformed_config.txt" sample_world)
  = Unexpected (HoldsConfigParseError (mkConfigParseError "malformed" 1)) /\
  fst (LoadConfig "empty.txt" sample_world)
  = Unexpected (HoldsConfigParseError (mkConfigParseError "malformed" 1)) /\
  fst (LoadConfig "short_data_config.txt" sample_world)
  = Value (mkConfig "short").
Proof.
  split; [| split].
  - apply (LoadConfig_readable "malformed_config.txt" "malformed content"
             sample_world); [vm_compute; reflexivity |].
    right. exists EmptyString, " content". reflexivity.
  - apply (LoadConfig_readable "empty.txt" EmptyString sample_world);
      [vm_compute; reflexivity |].
    left. reflexivity.
  - apply (LoadConfig_readable "short_data_config.txt" "short" sample_world);
      [vm_compute; reflexivity |].
    split; [discriminate |].
    apply find_eq_npos. vm_compute. reflexivity.
Defined.

(** ** ValidateData *)

(** C4: [ValidateData] fails with
    [ValidationError{"invalid_field", "contains disallowed value"}] exactly
    when the text of the [Config] contains "invalid_field"; otherwise it
    succeeds with "Validated: " followed by the text. *)
Theorem ValidateData_spec (config : Config) (w : World) :
  (fst (ValidateData config w)
   = Unexpected
       (HoldsValidationError
          (mkValidationError "invalid_field" "contains disallowed value"))
   <-> contains (data config) "invalid_field") /\
  (~ contains (data config) "invalid_field" ->
   fst (ValidateData config w)
   = Value (mkValidatedData ("Validated: " +:+ data config))).
Proof.
  destruct (ne_npos (find (data config) "invalid_field")) eqn:C.
  - rewrite (ValidateData_invalid _ _ C). apply find_ne_npos in C.
    split; [split; [intros _; exact C | reflexivity] | contradiction].
  - rewrite (ValidateData_valid _ _ C). apply find_eq_npos in C.
    split; [split; [discriminate | contradiction] | reflexivity].
Qed.

Lemma ValidateData_spec_witness :
  fst (ValidateData (mkConfig "valid_data_content") sample_world)
  = Value (mkValidatedData "Validated: valid_data_content").
Proof.
  apply (ValidateData_spec (mkConfig "valid_data_content") sample_world).
  apply find_eq_npos. vm_compute. reflexivity.
Defined.

(** ** ProcessData *)

Lemma static_cast_int_in_range (n : Z) :
  INT_MIN <= n <= INT_MAX -> static_cast_int n = n.
Proof.
  unfold static_cast_int, INT_MIN, INT_MAX, int_bits. intros H.
  rewrite Z.mod_small; lia.
Qed.

Lemma pow2_copies_length (k : nat) (s : string) :
  length (pow2_copies k s) = 2 ^ Z.of_nat k * length s.
Proof.
  revert s. induction k as [|k IH]; intros s.
  - cbn [pow2_copies]. change (Z.of_nat 0) with 0. lia.
  - cbn [pow2_copies]. rewrite IH, length_append, Nat2Z.inj_succ, Z.pow_succ_r; lia.
Qed.

(** C5, as the code has it: [ProcessData] fails with
    [ProcessingError{"Data Processing", "Input data too short for task"}]
    exactly when the text is shorter than 10 characters; otherwise it succeeds
    with the length converted to [int], which is the length itself whenever
    the length is at most [INT_MAX]. *)
Theorem ProcessData_spec (d : ValidatedData) (w : World) :
  (fst (ProcessData d w)
   = Unexpected
       (HoldsProcessingError
          (mkProcessingError "Data Processing" "Input data too short for task"))
   <-> length (processed_data d) < 10) /\
  (10 <= length (processed_data d) ->
   fst (ProcessData d w)
   = Value (mkResult (static_cast_int (length (processed_data d))))) /\
  (10 <= length (processed_data d) <= INT_MAX ->
   fst (ProcessData d w) = Value (mkResult (length (processed_data d)))).
Proof.
  destruct (Z.lt_ge_cases (length (processed_data d)) 10) as [C | C].
  - rewrite (ProcessData_short _ _ C).
    split; [split; [intros _; exact C | reflexivity] | split; lia].
  - rewrite (ProcessData_long _ _ C).
    split; [split; [discriminate | lia] | split; [reflexivity |]].
    intros [_ H]. cbn [fst]. rewrite static_cast_int_in_range; [reflexivity |].
    unfold INT_MIN, int_bits. lia.
Qed.

Lemma ProcessData_spec_witness :
  fst (ProcessData (mkValidatedData "Validated: short") sample_world)
  = Value (mkResult 16).
Proof.
  apply (ProcessData_spec (mkValidatedData "Validated: short") sample_world).
  vm_compute. split; discriminate.
Defined.

(** C5 as the specification words it fails on a text of [2 ^ 31]
    characters: [ProcessData] succeeds, and the code it returns is
    [INT_MIN], not the length. *)
Lemma ProcessData_code_is_not_length :
  length (pow2_copies 31 "a") = 2147483648 /\
  fst (ProcessData (mkValidatedData (pow2_copies 31 "a")) sample_world)
  = Value (mkResult (-2147483648)).
Proof.
  assert (HL : length (pow2_copies 31 "a") = 2147483648).
  { rewrite pow2_copies_length. reflexivity. }
  split; [exact HL |].
  rewrite ProcessData_long; cbn [processed_data fst]; rewrite HL;
    [reflexivity | lia].
Qed.

(** ** ValidateData followed by ProcessData *)

Lemma ValidateData_value_length (cfg : Config) (vd : ValidatedData)
    (w w' : World) :
  ValidateData cfg w = (Value vd, w') ->
  length (processed_data vd) = 11 + length (data cfg).
Proof.
  destruct (ne_npos (find (data cfg) "invalid_field")) eqn:C.
  - rewrite (ValidateData_invalid _ _ C). discriminate.
  - rewrite (ValidateData_valid _ _ C). intros [= <- _].
    exact (length_append "Validated: " (data cfg)).
Qed.

(** What the two last stages return on a [Config]: a validation error, or
    the length of the prefixed text as a code. *)
Lemma validate_then_process_result (cfg : Config) (w : World) :
  fst (validate_then_process cfg w) = Unexpected validation_error \/
  fst (validate_then_process cfg w)
  = Value (mkResult (static_cast_int (11 + length (data cfg)))).
Proof.
  destruct (ValidateData cfg w) as [[vd | e] w'] eqn:HV.
  - right. rewrite (validate_then_process_validated _ _ _ _ HV).
    pose proof (ValidateData_value_length _ _ _ _ HV) as HL.
    pose proof (length_nonneg (data cfg)).
    rewrite ProcessData_long, HL; [reflexivity | lia].
  - left. rewrite (validate_then_process_failed _ _ _ _ HV).
    destruct (ne_npos (find (data cfg) "invalid_field")) eqn:C.
    + rewrite (ValidateData_invalid _ _ C) in HV. now injection HV as <- _.
    + rewrite (ValidateData_valid _ _ C) in HV. discriminate.
Qed.

Lemma validate_then_process_no_processing_error (cfg : Config) (w : World) :
  is_processing_error (fst (validate_then_process cfg w)) = false.
Proof.
  destruct (validate_then_process_result cfg w) as [-> | ->]; reflexivity.
Qed.

(** The empty payload, validated and processed, gives code 11: the text
    that [ProcessData] measures has the 11 characters of the prefix. *)
Lemma empty_payload_is_processed (w : World) :
  fst (validate_then_process (mkConfig EmptyString) w) = Value (mkResult 11).
Proof.
  erewrite validate_then_process_validated;
    [| apply ValidateData_valid; reflexivity].
  rewrite ProcessData_long; [reflexivity | unfold length; cbn; lia].
Qed.

(** C6: on the input of scenario 5 of [main], a file whose content is
    "short", a payload of 5 characters, the pipeline does not end in a
    [ProcessingError]: it succeeds, and its code is 16, the length of
    "Validated: short". *)
Theorem call_pipeline_short_content (path : string) (w : World) :
  files w !! path = Some "short" ->
  fst (call_pipeline path w) = Value (mkResult 16) /\
  length "Validated: short" = 16.
Proof.
  intros H. split; [| reflexivity].
  erewrite call_pipeline_loaded;
    [| apply (LoadConfig_loaded _ _ _ H); reflexivity].
  erewrite validate_then_process_validated;
    [| apply ValidateData_valid; reflexivity].
  rewrite ProcessData_long; [reflexivity | unfold length; cbn; lia].
Qed.

Lemma call_pipeline_short_content_witness :
  fst (call_pipeline "short_data_config.txt" sample_world)
  = Value (mkResult 16) /\
  length "Validated: short" = 16.
Proof.
  apply (call_pipeline_short_content "short_data_config.txt" sample_world).
  vm_compute. reflexivity.
Defined.

(** Runs a chain whose file has just been written and passes every stage. *)
Ltac run_valid_chain :=
  match goal with H : can_create _ _ = true |- _ => rewrite H end;
  cbn [snd files output];
  erewrite LoadConfig_loaded;
    [| cbn [files]; apply lookup_insert_eq | reflexivity];
  cbn [and_then];
  erewrite ValidateData_valid; [| reflexivity];
  cbn [and_then];
  rewrite ProcessData_long; [| unfold length; cbn; lia];
  unfold handle_pipeline_result, put; cbn [snd output files];
  rewrite <- !app_assoc; reflexivity.

(** Scenario 5 of [main], announced as a processing error, reports success
    when its file is created. *)
Lemma scenario_5_output (env : Env) (w : World) :
  can_create env "short_data_config.txt" = true ->
  output (snd (scenario_5 env w)) =
    (output w ++
    [(cout, endl +:+ "--- Scenario 5: Processing Error ---" +:+ endl);
     (cout, "DEBUG: Config loaded successfully from short_data_config.txt"
            +:+ endl);
     (cout, "DEBUG: Data validated successfully." +:+ endl);
     (cout, "DEBUG: Data processed successfully." +:+ endl);
     (cout, endl +:+ "Pipeline Succeeded! Final Result Code: 16" +:+ endl)])%list.
Proof.
  intros H. unfold scenario_5, run_scenario, bind, put, ofstream.
  run_valid_chain.
Qed.

(** ** End to end *)

(** C7: on a source whose content is "valid_data_content" the pipeline
    succeeds with code 29, the length of "Validated: valid_data_content". *)
Theorem call_pipeline_valid_data_content (path : string) (w : World) :
  files w !! path = Some "valid_data_content" ->
  fst (call_pipeline path w) = Value (mkResult 29) /\
  length "Validated: valid_data_content" = 29.
Proof.
  intros H. split; [| reflexivity].
  erewrite call_pipeline_loaded;
    [| apply (LoadConfig_loaded _ _ _ H); reflexivity].
  erewrite validate_then_process_validated;
    [| apply ValidateData_valid; reflexivity].
  rewrite ProcessData_long; [reflexivity | unfold length; cbn; lia].
Qed.

Lemma call_pipeline_valid_data_content_witness :
  fst (call_pipeline "valid_config.txt" sample_world) = Value (mkResult 29) /\
  length "Validated: valid_data_content" = 29.
Proof.
  apply (call_pipeline_valid_data_content "valid_config.txt" sample_world).
  vm_compute. reflexivity.
Defined.

(** Scenario 1 of [main] reports code 29 when its file is created, whatever
    the world it starts in. *)
Lemma scenario_1_output (env : Env) (w : World) :
  can_create env "valid_config.txt" = true ->
  output (snd (scenario_1 env w)) =
    (output w ++
    [(cout, "--- Scenario 1: Successful Execution ---" +:+ endl);
     (cout, "DEBUG: Config loaded successfully from valid_config.txt"
            +:+ endl);
     (cout, "DEBUG: Data validated successfully." +:+ endl);
     (cout, "DEBUG: Data processed successfully." +:+ endl);
     (cout, endl +:+ "Pipeline Succeeded! Final Result Code: 29" +:+ endl)])%list.
Proof.
  intros H. unfold scenario_1, run_scenario, bind, put, ofstream.
  run_valid_chain.
Qed.

(** ** Two runs on the same input *)

(** The result of a run and the lines it prints are determined by the
    configuration file alone; a run appends its lines to the output and
    leaves the files as they were. *)
Lemma validate_then_process_frame (cfg : Config) :
  exists (r : expected Result PipelineError) (evs : list (ostream * string)),
    forall w : World,
      validate_then_process cfg w
      = (r, mkWorld (files w) (output w ++ evs)).
Proof.
  destruct (ne_npos (find (data cfg) "invalid_field")) eqn:C.
  - eexists _, [_]. intros w.
    apply validate_then_process_failed, ValidateData_invalid, C.
  - set (vd := mkValidatedData ("Validated: " +:+ data cfg)).
    destruct (Z.lt_ge_cases (length (processed_data vd)) 10) as [L | L].
    + eexists _, [_; _]. intros w.
      erewrite validate_then_process_validated;
        [| apply ValidateData_valid, C].
      fold vd. rewrite (ProcessData_short _ _ L).
      cbn [files output]. rewrite <- app_assoc. reflexivity.
    + eexists _, [_; _]. intros w.
      erewrite validate_then_process_validated;
        [| apply ValidateData_valid, C].
      fold vd. rewrite (ProcessData_long _ _ L).
      cbn [files output]. rewrite <- app_assoc. reflexivity.
Qed.

Lemma call_pipeline_frame (path : string) (file : option string) :
  exists (r : expected Result PipelineError) (evs : list (ostream * string)),
    forall w : World,
      files w !! path = file ->
      call_pipeline path w = (r, mkWorld (files w) (output w ++ evs)).
Proof.
  destruct file as [content |].
  - destruct (empty content || ne_npos (find content "malformed")) eqn:C.
    + eexists _, [_]. intros w H.
      apply call_pipeline_load_failed. apply (LoadConfig_malformed _ _ _ H C).
    + destruct (validate_then_process_frame (mkConfig content))
        as (r & evs & Hvp).
      eexists r, (_ :: evs). intros w H.
      rewrite (call_pipeline_loaded _ _ _ _ (LoadConfig_loaded _ _ _ H C)).
      rewrite Hvp. cbn [files output]. rewrite <- app_assoc. reflexivity.
  - eexists _, [_]. intros w H.
    apply call_pipeline_load_failed. apply (LoadConfig_unopened _ _ H).
Qed.

(** C8: two runs of the pipeline on the same path, in worlds where that path
    has the same content (or is absent from both), end in equal results and
    print the same lines.  In particular a second run, started in the world
    the first run left, returns what the first run returned, since a run does
    not change the files. *)
Theorem call_pipeline_deterministic :
  (forall (path : string) (w w' : World),
      files w !! path = files w' !! path ->
      fst (call_pipeline path w) = fst (call_pipeline path w') /\
      exists evs : list (ostream * string),
        output (snd (call_pipeline path w)) = (output w ++ evs)%list /\
        output (snd (call_pipeline path w')) = (output w' ++ evs)%list) /\
  (forall (path : string) (w : World),
      files (snd (call_pipeline path w)) = files w) /\
  (forall (path : string) (w : World),
      fst (call_pipeline path (snd (call_pipeline path w)))
      = fst (call_pipeline path w)).
Proof.
  split; [| split].
  - intros path w w' H.
    destruct (call_pipeline_frame path (files w !! path)) as (r & evs & Hf).
    rewrite (Hf w eq_refl), (Hf w' (eq_sym H)). split; [reflexivity |].
    exists evs. split; reflexivity.
  - intros path w.
    destruct (call_pipeline_frame path (files w !! path)) as (r & evs & Hf).
    rewrite (Hf w eq_refl). reflexivity.
  - intros path w.
    destruct (call_pipeline_frame path (files w !! path)) as (r & evs & Hf).
    rewrite (Hf w eq_refl). cbn [snd fst].
    rewrite (Hf (mkWorld (files w) (output w ++ evs)) eq_refl). reflexivity.
Qed.

Lemma call_pipeline_deterministic_witness :
  fst (call_pipeline "valid_config.txt" sample_world)
  = fst (call_pipeline "valid_config.txt"
           (mkWorld (delete "empty.txt" sample_files) [(cout, "earlier")])).
Proof.
  apply (proj1 call_pipeline_deterministic "valid_config.txt" sample_world
           (mkWorld (delete "empty.txt" sample_files) [(cout, "earlier")])).
  vm_compute. reflexivity.
Defined.

(** ** The dispatcher *)

Lemma message_neq_unexpected (c : ascii) (s : string) :
  c <> "A"%char -> String c s <> unexpected_type_message.
Proof. intros H [= E _]. exact (H E). Qed.

(** C9: for every error that the variant can hold, overload resolution on
    the five lambdas of [handle_pipeline_result] selects the lambda at the
    position of the alternative held, one of the four that take a single
    alternative (positions 0 to 3), and never the generic lambda at
    position 4; [std::visit] runs the body of the selected lambda and
    nothing else, so that [handle_pipeline_result] prints, after the header,
    the message of the kind of error with its fields, which is not the
    message of the generic lambda. *)
Theorem fallback_never_selected (e : PipelineError) :
  (index e < 4)%nat /\
  (exists body, error_visitor !! 4%nat = Some (OnAuto body)) /\
  (exists (l : lambda) (m : M unit),
      error_visitor !! index e = Some l /\
      is_generic l = false /\
      call_exact l e = Some m /\
      resolve error_visitor e = Some (index e, m) /\
      visit error_visitor e = m) /\
  (forall w : World,
      handle_pipeline_result (Unexpected e) w
      = (tt,
         mkWorld (files w)
           (output w ++
            [(cerr, endl +:+ "Pipeline Failed! Error details: ");
             (cerr,
              match e with
              | HoldsConfigReadError x =>
                  "Configuration Read Error: Could not open file '"
                  +:+ filename x +:+ "'" +:+ endl
              | HoldsConfigParseError x =>
                  "Configuration Parse Error: Malformed content at line "
                  +:+ to_chars (line_number x) +:+ " (Context: '"
                  +:+ line_content x +:+ "')" +:+ endl
              | HoldsValidationError x =>
                  "Data Validation Error: Field '" +:+ field_name x
                  +:+ "' has invalid value '" +:+ invalid_value x
                  +:+ "'" +:+ endl
              | HoldsProcessingError x =>
                  "Data Processing Error: Task '" +:+ task_name x
                  +:+ "' failed. Details: " +:+ details x +:+ endl
              end)]))) /\
  (forall w : World,
      ~ In (cerr, unexpected_type_message)
          (output (snd (handle_pipeline_result (Unexpected e)
                          (mkWorld (files w) []))))).
Proof.
  assert (R : forall w : World,
             handle_pipeline_result (Unexpected e) w
             = (tt,
                mkWorld (files w)
                  (output w ++
                   [(cerr, endl +:+ "Pipeline Failed! Error details: ");
                    (cerr,
                     match e with
                     | HoldsConfigReadError x =>
                         "Configuration Read Error: Could not open file '"
                         +:+ filename x +:+ "'" +:+ endl
                     | HoldsConfigParseError x =>
                         "Configuration Parse Error: Malformed content at line "
                         +:+ to_chars (line_number x) +:+ " (Context: '"
                         +:+ line_content x +:+ "')" +:+ endl
                     | HoldsValidationError x =>
                         "Data Validation Error: Field '" +:+ field_name x
                         +:+ "' has invalid value '" +:+ invalid_value x
                         +:+ "'" +:+ endl
                     | HoldsProcessingError x =>
                         "Data Processing Error: Task '" +:+ task_name x
                         +:+ "' failed. Details: " +:+ details x +:+ endl
                     end)]))).
  { intros w. destruct e as [x | x | x | x];
      unfold handle_pipeline_result, bind, visit; cbn -[put String.append];
      unfold put; cbn [files output]; rewrite <- app_assoc; reflexivity. }
  split; [| split; [| split; [| split]]].
  - destruct e; cbn; lia.
  - eexists. reflexivity.
  - destruct e as [x | x | x | x]; eexists _, _;
      (split; [reflexivity |]); repeat split.
  - exact R.
  - intros w. rewrite R. cbn [snd output files app In].
    intros [H | [H | []]].
    + discriminate H.
    + injection H as H. revert H.
      destruct e as [x | x | x | x]; apply message_neq_unexpected;
        discriminate.
Qed.

(** The generic lambda is what overload resolution falls back to when the
    visitor has no lambda for the alternative held. *)
Lemma fallback_selected_without_specific_lambda :
  option_map fst
    (resolve [OnConfigReadError (fun _ => ret tt);
              OnAuto (fun _ _ => put cerr unexpected_type_message)]
       processing_error)
  = Some 1%nat.
Proof. reflexivity. Qed.

(** ** ProcessingError through the pipeline *)

Lemma LoadConfig_value_nonempty (path : string) (w w1 : World)
    (cfg : Config) :
  LoadConfig path w = (Value cfg, w1) -> 1 <= length (data cfg).
Proof.
  destruct (files w !! path) as [content |] eqn:H.
  - destruct (empty content || ne_npos (find content "malformed")) eqn:C.
    + rewrite (LoadConfig_malformed _ _ _ H C). discriminate.
    + rewrite (LoadConfig_loaded _ _ _ H C). intros [= <- _].
      apply orb_false_iff in C as [C _]. apply empty_false_length, C.
  - rewrite (LoadConfig_unopened _ _ H). discriminate.
Qed.

(** C10: whatever the path and the files, the pipeline never ends in a
    [ProcessingError]: a [Config] that [LoadConfig] returns has a non-empty
    text, so the text that [ValidateData] returns has 11 characters more,
    at least 12, which is not less than 10. *)
Theorem call_pipeline_no_ProcessingError (path : string) (w : World) :
  is_processing_error (fst (call_pipeline path w)) = false /\
  (forall (cfg : Config) (w1 : World),
      LoadConfig path w = (Value cfg, w1) -> 1 <= length (data cfg)) /\
  (forall (cfg : Config) (vd : ValidatedData) (w1 w2 : World),
      LoadConfig path w = (Value cfg, w1) ->
      ValidateData cfg w1 = (Value vd, w2) ->
      length (processed_data vd) = 11 + length (data cfg) /\
      12 <= length (processed_data vd) /\
      (length (processed_data vd) <? 10)%Z = false).
Proof.
  split; [| split].
  - destruct (LoadConfig path w) as [[cfg | e] w1] eqn:HL.
    + rewrite (call_pipeline_loaded _ _ _ _ HL).
      apply validate_then_process_no_processing_error.
    + rewrite (call_pipeline_load_failed _ _ _ _ HL).
      destruct (files w !! path) as [content |] eqn:H.
      * destruct (empty content || ne_npos (find content "malformed")) eqn:C.
        -- rewrite (LoadConfig_malformed _ _ _ H C) in HL.
           now injection HL as <- _.
        -- rewrite (LoadConfig_loaded _ _ _ H C) in HL. discriminate.
      * rewrite (LoadConfig_unopened _ _ H) in HL. now injection HL as <- _.
  - intros cfg w1. apply LoadConfig_value_nonempty.
  - intros cfg vd w1 w2 HL HV.
    pose proof (LoadConfig_value_nonempty _ _ _ _ HL).
    pose proof (ValidateData_value_length _ _ _ _ HV).
    repeat split; [assumption | lia | apply Z.ltb_ge; lia].
Qed.

Lemma call_pipeline_no_ProcessingError_witness :
  is_processing_error (fst (call_pipeline "short_data_config.txt" sample_world))
  = false.
Proof.
  apply (call_pipeline_no_ProcessingError "short_data_config.txt" sample_world).
Defined.

(** * Further properties of the code *)

(** ** The outcome of a run, case by case *)

(** The four ways through [call_pipeline], each with the result and the world
    it ends in. *)
Lemma call_pipeline_cases (path : string) (w : World) :
  (files w !! path = None /\
   call_pipeline path w =
     (Unexpected (read_error path),
      mkWorld (files w)
        (output w ++
         [(cerr, "DEBUG: LoadConfig failed to open " +:+ path +:+ endl)])))
  \/
  (exists content : string,
      files w !! path = Some content /\
      empty content || ne_npos (find content "malformed") = true /\
      call_pipeline path w =
        (Unexpected parse_error,
         mkWorld (files w)
           (output w ++
            [(cerr, "DEBUG: LoadConfig detected malformed config in "
                    +:+ path +:+ endl)])))
  \/
  (exists content : string,
      files w !! path = Some content /\
      empty content || ne_npos (find content "malformed") = false /\
      ne_npos (find content "invalid_field") = true /\
      call_pipeline path w =
        (Unexpected validation_error,
         mkWorld (files w)
           (output w ++
            [(cout, "DEBUG: Config loaded successfully from "
                    +:+ path +:+ endl);
             (cerr, "DEBUG: ValidateData detected invalid field."
                    +:+ endl)])))
  \/
  (exists content : string,
      files w !! path = Some content /\
      empty content || ne_npos (find content "malformed") = false /\
      ne_npos (find content "invalid_field") = false /\
      call_pipeline path w =
        (Value (mkResult (static_cast_int (11 + length content))),
         mkWorld (files w)
           (output w ++
            [(cout, "DEBUG: Config loaded successfully from "
                    +:+ path +:+ endl);
             (cout, "DEBUG: Data validated successfully." +:+ endl);
             (cout, "DEBUG: Data processed successfully." +:+ endl)]))).
Proof.
  destruct (files w !! path) as [content |] eqn:H.
  - destruct (empty content || ne_npos (find content "malformed")) eqn:C.
    + right; left. exists content. split; [reflexivity | split; [exact C |]].
      apply call_pipeline_load_failed, (LoadConfig_malformed _ _ _ H C).
    + rewrite (call_pipeline_loaded _ _ _ _ (LoadConfig_loaded _ _ _ H C)).
      destruct (ne_npos (find content "invalid_field")) eqn:V.
      * right; right; left. exists content.
        split; [reflexivity | split; [exact C | split; [exact V |]]].
        erewrite validate_then_process_failed;
          [| apply ValidateData_invalid; exact V].
        cbn [files output]. rewrite <- app_assoc. reflexivity.
      * right; right; right. exists content.
        split; [reflexivity | split; [exact C | split; [exact V |]]].
        erewrite validate_then_process_validated;
          [| apply ValidateData_valid; exact V].
        pose proof (length_nonneg content).
        rewrite ProcessData_long; cbn [processed_data data];
          rewrite (length_append "Validated: " content);
          change (length "Validated: ") with 11; [| lia].
        cbn [files output]. rewrite <- !app_assoc. reflexivity.
  - left. split; [reflexivity |].
    apply call_pipeline_load_failed, (LoadConfig_unopened _ _ H).
Qed.

Lemma load_condition_true (content : string) :
  empty content || ne_npos (find content "malformed") = true <->
  content = EmptyString \/ contains content "malformed".
Proof. now rewrite orb_true_iff, empty_true, find_ne_npos. Qed.

Lemma load_condition_false (content : string) :
  empty content || ne_npos (find content "malformed") = false <->
  content <> EmptyString /\ ~ contains content "malformed".
Proof.
  rewrite orb_false_iff, find_eq_npos.
  destruct content; simpl; split; intros [A B]; split; congruence.
Qed.

(** X1: the pipeline succeeds exactly when the file can be read and its
    content is non-empty and contains neither "malformed" nor
    "invalid_field"; the code is then the length of the content plus 11,
    converted to [int], which is that sum itself when it fits. *)
Theorem call_pipeline_success (path : string) (w : World) :
  (forall r : Result,
      fst (call_pipeline path w) = Value r ->
      exists content : string,
        files w !! path = Some content /\
        content <> EmptyString /\
        ~ contains content "malformed" /\
        ~ contains content "invalid_field" /\
        final_result_code r = static_cast_int (11 + length content)) /\
  (forall content : string,
      files w !! path = Some content ->
      content <> EmptyString ->
      ~ contains content "malformed" ->
      ~ contains content "invalid_field" ->
      fst (call_pipeline path w)
      = Value (mkResult (static_cast_int (11 + length content))) /\
      (11 + length content <= INT_MAX ->
       fst (call_pipeline path w) = Value (mkResult (11 + length content)))).
Proof.
  destruct (call_pipeline_cases path w)
    as [[H E] | [(c & H & C & E) | [(c & H & C & V & E) | (c & H & C & V & E)]]];
    rewrite E; cbn [fst]; (split; [intros r Hr | intros content Hc N M I]).
  all: try discriminate Hr.
  - congruence.
  - rewrite Hc in H. injection H as <-.
    apply load_condition_true in C. exfalso. tauto.
  - rewrite Hc in H. injection H as <-.
    apply find_ne_npos in V. contradiction.
  - injection Hr as <-. exists c. apply load_condition_false in C as [C1 C2].
    apply find_eq_npos in V. repeat split; assumption.
  - rewrite Hc in H. injection H as <-. split; [reflexivity |].
    intros B. rewrite static_cast_int_in_range; [reflexivity |].
    pose proof (length_nonneg content). unfold INT_MIN, int_bits. lia.
Qed.

Lemma call_pipeline_success_witness :
  fst (call_pipeline "short_data_config.txt" sample_world)
  = Value (mkResult 16).
Proof.
  apply (proj2 (call_pipeline_success "short_data_config.txt" sample_world)
           "short").
  - vm_compute. reflexivity.
  - discriminate.
  - apply find_eq_npos. vm_compute. reflexivity.
  - apply find_eq_npos. vm_compute. reflexivity.
  - vm_compute. discriminate.
Defined.

(** X2: which error ends a run.  It is the read error exactly when the file
    cannot be opened; the parse error exactly when the file is empty or
    contains "malformed", whether or not it also contains "invalid_field";
    the validation error exactly when the file is non-empty, free of
    "malformed" and contains "invalid_field". *)
Theorem call_pipeline_failure_kinds (path : string) (w : World) :
  (fst (call_pipeline path w)
   = Unexpected (HoldsConfigReadError (mkConfigReadError path))
   <-> files w !! path = None) /\
  (fst (call_pipeline path w)
   = Unexpected (HoldsConfigParseError (mkConfigParseError "malformed" 1))
   <-> exists content : string,
         files w !! path = Some content /\
         (content = EmptyString \/ contains content "malformed")) /\
  (fst (call_pipeline path w)
   = Unexpected
       (HoldsValidationError
          (mkValidationError "invalid_field" "contains disallowed value"))
   <-> exists content : string,
         files w !! path = Some content /\
         content <> EmptyString /\
         ~ contains content "malformed" /\
         contains content "invalid_field").
Proof.
  destruct (call_pipeline_cases path w)
    as [[H E] | [(c & H & C & E) | [(c & H & C & V & E) | (c & H & C & V & E)]]];
    rewrite E, H; cbn [fst].
  - split; [split; auto | split; split; try discriminate].
    + intros (c & Hc & _). discriminate.
    + intros (c & Hc & _). discriminate.
  - apply load_condition_true in C.
    split; [split; discriminate | split; split; try discriminate].
    + intros _. now exists c.
    + reflexivity.
    + intros (c' & [= <-] & N & M & _). exfalso. tauto.
  - apply load_condition_false in C as [C1 C2]. apply find_ne_npos in V.
    split; [split; discriminate | split; split; try discriminate].
    + intros (c' & [= <-] & [N | M]); contradiction.
    + intros _. now exists c.
    + reflexivity.
  - apply load_condition_false in C as [C1 C2]. apply find_eq_npos in V.
    split; [split; discriminate | split; split; try discriminate].
    + intros (c' & [= <-] & [N | M]); contradiction.
    + intros (c' & [= <-] & _ & _ & M). contradiction.
Qed.

Lemma call_pipeline_failure_kinds_witness :
  fst (call_pipeline "malformed_config.txt"
         (mkWorld (<["malformed_config.txt" := "malformed invalid_field"]> ∅)
            []))
  = Unexpected (HoldsConfigParseError (mkConfigParseError "malformed" 1)).
Proof.
  apply (call_pipeline_failure_kinds "malformed_config.txt").
  exists "malformed invalid_field". split; [vm_compute; reflexivity |].
  right. exists EmptyString, " invalid_field". reflexivity.
Defined.

(** ** What a run prints *)


(** ** Chains of [and_then] *)

(** X9: chained [and_then] calls can be regrouped: running [f] and then [g]
    on a result is running, on its value, [f] followed by [g] on what [f]
    returns; and a stage that only wraps its argument changes nothing. *)
Theorem and_then_assoc :
  (forall (T U V E : Type) (r : expected T E) (f : T -> M (expected U E))
          (g : U -> M (expected V E)) (w : World),
      (r' <- and_then r f ;; and_then r' g) w
      = and_then r (fun v => r' <- f v ;; and_then r' g) w) /\
  (forall (T E : Type) (r : expected T E) (w : World),
      and_then r (fun v => ret (Value v)) w = (r, w)).
Proof.
  split.
  - intros T U V E [v | e] f g w; reflexivity.
  - intros T E [v | e] w; reflexivity.
Qed.

(** ** The dispatcher's report *)

Lemma append_inv_tail (a b s : string) : a +:+ s = b +:+ s -> a = b.
Proof.
  revert b. induction a as [| x a IH]; intros [| y b]; simpl; intros H.
  - reflexivity.
  - exfalso. apply (f_equal length) in H.
    change (String y (b +:+ s)) with (String y b +:+ s) in H.
    rewrite length_append in H. unfold length in H at 2.
    simpl String.length in H. lia.
  - exfalso. apply (f_equal length) in H.
    change (String x (a +:+ s)) with (String x a +:+ s) in H.
    rewrite length_append in H. unfold length in H at 1.
    simpl String.length in H. lia.
  - injection H as -> H. f_equal. apply IH, H.
Qed.

(** From two equal reports, the equality of the lines that follow the
    header. *)
Ltac report_lines H :=
  unfold handle_pipeline_result, bind, visit in H;
  cbn -[put String.append] in H; unfold put in H; cbn [files output] in H;
  rewrite <- !app_assoc in H;
  injection H as H; apply app_inv_head in H; injection H as H.

(** X4: the report of a failure tells the kind of error: two errors for
    which [handle_pipeline_result] prints the same hold the same
    alternative.  For read errors it tells the file name as well. *)
Theorem report_determines_kind :
  (forall (e1 e2 : PipelineError) (w : World),
      handle_pipeline_result (Unexpected e1) w
      = handle_pipeline_result (Unexpected e2) w ->
      index e1 = index e2) /\
  (forall (c1 c2 : ConfigReadError) (w : World),
      handle_pipeline_result (Unexpected (HoldsConfigReadError c1)) w
      = handle_pipeline_result (Unexpected (HoldsConfigReadError c2)) w ->
      c1 = c2).
Proof.
  split.
  - intros [x1 | x1 | x1 | x1] [x2 | x2 | x2 | x2] w H;
      try reflexivity; report_lines H; discriminate H.
  - intros [p1] [p2] w H. report_lines H. cbn [filename] in H.
    apply append_inv_tail in H. now subst.
Qed.

Lemma report_determines_kind_witness :
  index (HoldsValidationError
           (mkValidationError "a' has invalid value 'b" "c"))
  = index (HoldsValidationError
             (mkValidationError "a" "b' has invalid value 'c")).
Proof.
  apply (proj1 report_determines_kind _ _ sample_world).
  vm_compute. reflexivity.
Defined.

(** ** The unit test *)

Lemma test_read_nonexisted_config_file_run (w : World) :
  exists (passed : bool) (evs : list (ostream * string)),
    test_read_nonexisted_config_file w
    = (passed, mkWorld (files w) (output w ++ evs)) /\
    (passed = true <-> files w !! "this_file_should_not_exist.txt" = None) /\
    (passed = true ->
     evs = [(cerr, "DEBUG: LoadConfig failed to open "
                   +:+ "this_file_should_not_exist.txt" +:+ endl);
            (cout, "test_read_nonexisted_config_file() passes" +:+ endl)]).
Proof.
  unfold test_read_nonexisted_config_file, bind.
  destruct (call_pipeline_cases "this_file_should_not_exist.txt" w)
    as [[H E] | [(c & H & C & E) | [(c & H & C & V & E) | (c & H & C & V & E)]]];
    rewrite E, H.
  - exists true. eexists. cbn -[String.append]. unfold put.
    cbn [files output]. rewrite <- app_assoc.
    split; [reflexivity | split; [tauto | reflexivity]].
  - exists false. eexists. cbn -[String.append].
    split; [reflexivity | split; [split |]; discriminate].
  - exists false. eexists. cbn -[String.append].
    split; [reflexivity | split; [split |]; discriminate].
  - exists false. eexists. cbn -[String.append].
    split; [reflexivity | split; [split |]; discriminate].
Qed.

(** X5: [test_read_nonexisted_config_file] passes its assertions exactly
    when the file it names is absent, and it leaves the files as they
    were. *)
Theorem test_read_nonexisted_config_file_spec (w : World) :
  (fst (test_read_nonexisted_config_file w) = true
   <-> files w !! "this_file_should_not_exist.txt" = None) /\
  files (snd (test_read_nonexisted_config_file w)) = files w.
Proof.
  destruct (test_read_nonexisted_config_file_run w)
    as (passed & evs & E & P & _).
  rewrite E. split; [exact P | reflexivity].
Qed.

(** ** [main] *)

Lemma handle_pipeline_result_frame (r : expected Result PipelineError) :
  exists evs : list (ostream * string),
    forall w : World,
      handle_pipeline_result r w
      = (tt, mkWorld (files w) (output w ++ evs)).
Proof.
  destruct r as [v | [x | x | x | x]]; eexists; intros w;
    unfold handle_pipeline_result, bind, visit; cbn -[put String.append];
    unfold put; cbn [files output]; rewrite <- ?app_assoc; reflexivity.
Qed.

Lemma run_scenario_unfold (path : string) (w : World) :
  run_scenario path w =
    let (r, w') := call_pipeline path w in handle_pipeline_result r w'.
Proof.
  unfold run_scenario, call_pipeline, bind.
  destruct (LoadConfig path w) as [r1 w1].
  destruct (and_then r1 _ w1) as [r2 w2].
  destruct (and_then r2 _ w2) as [r3 w3]. reflexivity.
Qed.

(** A scenario prints and leaves the files alone. *)
Lemma run_scenario_frame (path : string) (w : World) :
  exists evs : list (ostream * string),
    run_scenario path w = (tt, mkWorld (files w) (output w ++ evs)).
Proof.
  rewrite run_scenario_unfold.
  destruct (call_pipeline_frame path (files w !! path)) as (r & evs & Hf).
  rewrite (Hf w eq_refl).
  destruct (handle_pipeline_result_frame r) as (evs' & Hh).
  rewrite Hh. cbn [files output]. rewrite <- app_assoc. now eexists.
Qed.

(** Runs a scenario through the stage equations; [load] proves the
    equation of [LoadConfig] that applies. *)
Ltac run_scenario_with load :=
  unfold run_scenario, bind, put, ofstream;
  try match goal with H : can_create _ _ = true |- _ => rewrite H end;
  erewrite load; [| cbn [files]; try apply lookup_insert_eq; eassumption
                  | reflexivity ..];
  cbn [and_then];
  try (erewrite ValidateData_valid; [| reflexivity]);
  try (erewrite ValidateData_invalid; [| reflexivity]);
  cbn [and_then];
  try (rewrite ProcessData_long; [| unfold length; cbn; lia]);
  unfold handle_pipeline_result, bind, visit; cbn -[put String.append];
  unfold put; cbn [snd output files];
  rewrite <- !app_assoc; reflexivity.

Lemma scenario_1_run (env : Env) (w : World) :
  can_create env "valid_config.txt" = true ->
  scenario_1 env w =
    (tt, mkWorld (<["valid_config.txt" := "valid_data_content"]> (files w))
           (output w ++ scenario_1_lines)).
Proof. intros H. unfold scenario_1. run_scenario_with LoadConfig_loaded. Qed.

Lemma scenario_2_run (w : World) :
  files w !! "non_existent_config.txt" = None ->
  scenario_2 w = (tt, mkWorld (files w) (output w ++ scenario_2_lines)).
Proof.
  intros H. unfold scenario_2. run_scenario_with LoadConfig_unopened.
Qed.

Lemma scenario_3_run (env : Env) (w : World) :
  can_create env "malformed_config.txt" = true ->
  scenario_3 env w =
    (tt, mkWorld (<["malformed_config.txt" := "malformed content"]> (files w))
           (output w ++ scenario_3_lines)).
Proof.
  intros H. unfold scenario_3. run_scenario_with LoadConfig_malformed.
Qed.

Lemma scenario_4_run (env : Env) (w : World) :
  can_create env "invalid_data_config.txt" = true ->
  scenario_4 env w =
    (tt, mkWorld
           (<["invalid_data_config.txt" :=
                "valid_data" +:+ endl +:+ "invalid_field"]> (files w))
           (output w ++ scenario_4_lines)).
Proof. intros H. unfold scenario_4. run_scenario_with LoadConfig_loaded. Qed.

Lemma scenario_5_run (env : Env) (w : World) :
  can_create env "short_data_config.txt" = true ->
  scenario_5 env w =
    (tt, mkWorld (<["short_data_config.txt" := "short"]> (files w))
           (output w ++ scenario_5_lines)).
Proof. intros H. unfold scenario_5. run_scenario_with LoadConfig_loaded. Qed.

(** A scenario that writes its file first: whether or not the file can be
    created, the scenario prints, and it touches no file but its own; when
    the file is created it prints the lines [lines] that the equation [Run]
    gives. *)
Lemma created_scenario_frame (env : Env) (header path content : string)
    (lines : list (ostream * string)) (w : World) :
  (can_create env path = true ->
   (put cout header ;; ofstream env path content ;; run_scenario path) w
   = (tt, mkWorld (<[path := content]> (files w)) (output w ++ lines))) ->
  exists (s : list (ostream * string)) (w' : World),
    (put cout header ;; ofstream env path content ;; run_scenario path) w
    = (tt, w') /\
    output w' = (output w ++ s)%list /\
    (forall q : string, q <> path -> files w' !! q = files w !! q) /\
    (can_create env path = true -> s = lines).
Proof.
  intros Run. destruct (can_create env path) eqn:C.
  - exists lines. eexists. split; [apply Run; reflexivity |].
    cbn [files output]. split; [reflexivity | split; [| reflexivity]].
    intros q N. apply lookup_insert_ne. congruence.
  - clear Run. unfold bind, put, ofstream. rewrite C.
    match goal with
    | |- context [run_scenario ?p ?w0] =>
        destruct (run_scenario_frame p w0) as (evs & E); rewrite E
    end.
    cbn [files output]. rewrite <- app_assoc.
    eexists _, _. split; [reflexivity |].
    cbn [files output]. split; [reflexivity | split; [reflexivity |]].
    discriminate.
Qed.

Lemma scenario_2_frame (w : World) :
  exists s2 : list (ostream * string),
    scenario_2 w = (tt, mkWorld (files w) (output w ++ s2)) /\
    (files w !! "non_existent_config.txt" = None -> s2 = scenario_2_lines).
Proof.
  destruct (files w !! "non_existent_config.txt") as [c |] eqn:H.
  - unfold scenario_2, bind, put.
    match goal with
    | |- context [run_scenario ?p ?w0] =>
        destruct (run_scenario_frame p w0) as (evs & E); rewrite E
    end.
    cbn [files output]. rewrite <- app_assoc.
    eexists. split; [reflexivity | discriminate].
  - exists scenario_2_lines. split; [apply scenario_2_run, H | reflexivity].
Qed.

Lemma remove_frame (env : Env) (path : string) (w : World) :
  exists w' : World,
    remove env path w = (tt, w') /\
    output w' = output w /\
    (forall q : string, q <> path -> files w' !! q = files w !! q).
Proof.
  unfold remove. destruct (can_remove env path); eexists;
    (split; [reflexivity |]); cbn [files output];
    (split; [reflexivity |]); [| reflexivity].
  intros q N. apply lookup_delete_ne. congruence.
Qed.

Lemma scenario_1_frame (env : Env) (w : World) :
  exists (s : list (ostream * string)) (w' : World),
    scenario_1 env w = (tt, w') /\
    output w' = (output w ++ s)%list /\
    (forall q : string,
        q <> "valid_config.txt" -> files w' !! q = files w !! q) /\
    (can_create env "valid_config.txt" = true -> s = scenario_1_lines).
Proof.
  exact (created_scenario_frame env _ _ _ _ w (scenario_1_run env w)).
Qed.

Lemma scenario_3_frame (env : Env) (w : World) :
  exists (s : list (ostream * string)) (w' : World),
    scenario_3 env w = (tt, w') /\
    output w' = (output w ++ s)%list /\
    (forall q : string,
        q <> "malformed_config.txt" -> files w' !! q = files w !! q) /\
    (can_create env "malformed_config.txt" = true -> s = scenario_3_lines).
Proof.
  exact (created_scenario_frame env _ _ _ _ w (scenario_3_run env w)).
Qed.

Lemma scenario_4_frame (env : Env) (w : World) :
  exists (s : list (ostream * string)) (w' : World),
    scenario_4 env w = (tt, w') /\
    output w' = (output w ++ s)%list /\
    (forall q : string,
        q <> "invalid_data_config.txt" -> files w' !! q = files w !! q) /\
    (can_create env "invalid_data_config.txt" = true ->
     s = scenario_4_lines).
Proof.
  exact (created_scenario_frame env _ _ _ _ w (scenario_4_run env w)).
Qed.

Lemma scenario_5_frame (env : Env) (w : World) :
  exists (s : list (ostream * string)) (w' : World),
    scenario_5 env w = (tt, w') /\
    output w' = (output w ++ s)%list /\
    (forall q : string,
        q <> "short_data_config.txt" -> files w' !! q = files w !! q) /\
    (can_create env "short_data_config.txt" = true -> s = scenario_5_lines).
Proof.
  exact (created_scenario_frame env _ _ _ _ w (scenario_5_run env w)).
Qed.

(** What [main] returns and prints, whatever the environment lets it
    create and remove. *)
Lemma main_run (env : Env) (w : World) :
  exists (s1 s2 s3 s4 s5 t : list (ostream * string)) (w' : World),
    main env w =
      (if bool_decide (files w !! "this_file_should_not_exist.txt" = None)
       then Some 0 else None, w') /\
    output w' = (output w ++ s1 ++ s2 ++ s3 ++ s4 ++ s5 ++ t)%list /\
    (can_create env "valid_config.txt" = true -> s1 = scenario_1_lines) /\
    (files w !! "non_existent_config.txt" = None -> s2 = scenario_2_lines) /\
    (can_create env "malformed_config.txt" = true -> s3 = scenario_3_lines) /\
    (can_create env "invalid_data_config.txt" = true ->
     s4 = scenario_4_lines) /\
    (can_create env "short_data_config.txt" = true ->
     s5 = scenario_5_lines) /\
    (files w !! "this_file_should_not_exist.txt" = None ->
     t = unit_test_lines).
Proof.
  unfold main, bind.
  destruct (scenario_1_frame env w) as (s1 & w1 & E1 & O1 & F1 & L1).
  rewrite E1.
  destruct (scenario_2_frame w1) as (s2 & E2 & L2). rewrite E2.
  destruct (scenario_3_frame env (mkWorld (files w1) (output w1 ++ s2)))
    as (s3 & w3 & E3 & O3 & F3 & L3).
  rewrite E3.
  destruct (scenario_4_frame env w3) as (s4 & w4 & E4 & O4 & F4 & L4).
  rewrite E4.
  destruct (scenario_5_frame env w4) as (s5 & w5 & E5 & O5 & F5 & L5).
  rewrite E5.
  destruct (remove_frame env "valid_config.txt" w5) as (w6 & E6 & O6 & F6).
  rewrite E6.
  destruct (remove_frame env "malformed_config.txt" w6)
    as (w7 & E7 & O7 & F7).
  rewrite E7.
  destruct (remove_frame env "invalid_data_config.txt" w7)
    as (w8 & E8 & O8 & F8).
  rewrite E8.
  destruct (remove_frame env "short_data_config.txt" w8)
    as (w9 & E9 & O9 & F9).
  rewrite E9.
  unfold put at 1.
  match goal with
  | |- context [test_read_nonexisted_config_file ?w0] =>
      destruct (test_read_nonexisted_config_file_run w0)
        as (passed & evs & E & P & T); rewrite E
  end.
  cbn [files output] in *.
  rewrite F9, F8, F7, F6, F5, F4, F3, F1 in P by done.
  rewrite F1 in L2 by done.
  rewrite O9, O8, O7, O6, O5, O4, O3, O1.
  exists s1, s2, s3, s4, s5. destruct passed.
  - exists unit_test_lines. rewrite (T eq_refl).
    rewrite bool_decide_true by (apply P; reflexivity).
    unfold put, ret. cbn [files output]. eexists.
    split; [reflexivity |]. cbn [output]. rewrite <- !app_assoc.
    repeat split; assumption.
  - eexists (_ :: evs).
    rewrite bool_decide_false by (intros N; apply P in N; discriminate).
    unfold ret. eexists. split; [reflexivity |].
    cbn [output]. rewrite <- !app_assoc.
    repeat split; try assumption.
    intros N. apply P in N. discriminate.
Qed.

(** X6: whatever the environment lets it create and remove, [main] returns
    0 exactly when "this_file_should_not_exist.txt" is absent from the files
    it starts with; otherwise an assertion of the unit test fails and it
    returns nothing. *)
Theorem main_exit_status (env : Env) (w : World) :
  (fst (main env w) = Some 0
   <-> files w !! "this_file_should_not_exist.txt" = None) /\
  (fst (main env w) = None
   <-> files w !! "this_file_should_not_exist.txt" <> None).
Proof.
  destruct (main_run env w) as (s1 & s2 & s3 & s4 & s5 & t & w' & E & _).
  rewrite E. cbn [fst].
  case_bool_decide as D; split; split; congruence.
Qed.



(** Where "valid_config.txt" is a directory, which cannot be opened for
    writing and reads as empty, scenario 1 reports a parse error. *)
Lemma scenario_1_on_a_directory :
  output
    (snd (scenario_1 (mkEnv (fun _ => false) (fun _ => true))
            (mkWorld (<["valid_config.txt" := EmptyString]> ∅) [])))
  = [(cout, "--- Scenario 1: Successful Execution ---" +:+ endl);
     (cerr, "DEBUG: LoadConfig detected malformed config in valid_config.txt"
            +:+ endl);
     (cerr, endl +:+ "Pipeline Failed! Error details: ");
     (cerr, "Configuration Parse Error: Malformed content at line 1 "
            +:+ "(Context: 'malformed')" +:+ endl)].
Proof. vm_compute. reflexivity. Qed.

(** X10: [handle_pipeline_result] reports a success on [std::cout] only and
    a failure on [std::cerr] only: after a success nothing has been written
    to [std::cerr], after a failure nothing to [std::cout], and in both
    cases the other stream has received text.  The files are left alone. *)
Theorem handle_pipeline_result_streams
    (r : expected Result PipelineError) (w : World) :
  exists evs : list (ostream * string),
    handle_pipeline_result r w = (tt, mkWorld (files w) (output w ++ evs)) /\
    (has_value r = true ->
     written cerr evs = EmptyString /\ written cout evs <> EmptyString) /\
    (has_value r = false ->
     written cout evs = EmptyString /\ written cerr evs <> EmptyString).
Proof.
  destruct r as [v | [x | x | x | x]]; eexists;
    (split; [unfold handle_pipeline_result, bind, visit;
             cbn -[put String.append]; unfold put; cbn [files output];
             rewrite <- ?app_assoc; reflexivity |]);
    cbn [has_value]; split; intros H; try discriminate H;
    (split; [reflexivity | discriminate]).
Qed.
